(** * Stability-operator assembly and spectrum reporting

    A shallow embedding of [src/03_eigenvalue_solver_demo.py]:
    [build_1d_operator] (finite-difference assembly followed by the
    Dirichlet row overwrite), [run_arnoldi_solver] (the wrapper around
    scipy's [eigs]) and the reporting loop of the [__main__] block.

    The shape of the operator, its boundary rows and the reporting loop
    are stated over exact rationals ([Q]): there the values of the
    floats play no part (entries assigned as literals are compared with
    Leibniz equality).  Whether the builder returns, and the values it
    stores, depend on rounding, overflow and underflow: these are stated
    over IEEE 754 binary64 numbers, in module [Binary64]. *)

From Stdlib Require Import ZArith QArith Qabs Lia Lra Lqa String DecimalString.
From Stdlib Require Import Sorted Floats.
From stdpp Require Import base list.

Local Open Scope nat_scope.

(** ** Python exceptions and the result of a call *)

(** The subclasses of [Exception] that can occur in the modelled code:
    Python's [ZeroDivisionError], [IndexError] and [OverflowError],
    numpy's and scipy's [ValueError], and ARPACK's two error classes
    raised by [eigs]. *)
Inductive exception : Type :=
| ZeroDivisionError
| ValueError
| IndexError
| ArpackNoConvergence
| ArpackError
| OverflowError.

Inductive result (X : Type) : Type :=
| Return (x : X)
| Raise (e : exception).
Arguments Return {X} x.
Arguments Raise {X} e.

Definition bind {X Y : Type} (r : result X) (k : X -> result Y) : result Y :=
  match r with
  | Return x => k x
  | Raise e => Raise e
  end.

Notation "x <- r ;; k" := (bind r (fun x => k))
  (at level 100, r at next level, right associativity).

Definition returns {X : Type} (r : result X) : Prop := exists x, r = Return x.
Definition raises {X : Type} (r : result X) : Prop := exists e, r = Raise e.

(** ** Scalars *)

(** [x / y] on Python floats (or a float and an int): a zero divisor
    raises [ZeroDivisionError]. *)
Definition py_div (x y : Q) : result Q :=
  if Qeq_bool y 0 then Raise ZeroDivisionError else Return (x / y)%Q.

(** ** Vectors and matrices *)

(** A scipy sparse matrix is modelled by its dense table of entries,
    one list per row. *)
Abbreviation matrix := (list (list Q)) (only parsing).

(** Entry [(i, j)], when the table has one. *)
Definition get (A : matrix) (i j : nat) : option Q :=
  match A !! i with
  | Some row => row !! j
  | None => None
  end.

(** [np.ones(n)]: a negative length raises [ValueError]. *)
Definition np_ones (n : Z) : result (list Q) :=
  if (n <? 0)%Z then Raise ValueError else Return (replicate (Z.to_nat n) 1%Q).

(** [c * v] for a scalar [c] and an array [v]. *)
Definition scalar_mul (c : Q) (v : list Q) : list Q := Qmult c <$> v.

(** The diagonal registered for offset [d], when there is one. *)
Fixpoint find_offset (d : Z) (offsets : list Z) (diagonals : list (list Q))
  : option (list Q) :=
  match offsets, diagonals with
  | o :: os, v :: vs => if (o =? d)%Z then Some v else find_offset d os vs
  | _, _ => None
  end.

(** Element of a diagonal placed at row [i], column [j]: a diagonal of
    length one is broadcast, otherwise it is indexed by [min i j]. *)
Definition diag_elem (v : list Q) (i j : nat) : Q :=
  match v with
  | [x] => x
  | _ => default 0%Q (v !! Nat.min i j)
  end.

(** scipy's size check on the diagonals: the diagonal at offset [o] of an
    [n] by [n] matrix has [n - |o|] places; a diagonal of another length
    (other than one) or an offset out of bounds raises [ValueError]. *)
Fixpoint check_diags (offsets : list Z) (diagonals : list (list Q)) (n : nat)
  : bool :=
  match offsets, diagonals with
  | o :: os, v :: vs =>
      let len := (Z.of_nat n - Z.abs o)%Z in
      (0 <=? len)%Z
      && ((Z.of_nat (length v) =? len)%Z || (length v =? 1))
      && check_diags os vs n
  | [], [] => true
  | _, _ => false
  end.

(** [diags(diagonals, offsets, shape=(n, n), format='csr')]. *)
Definition diags (diagonals : list (list Q)) (offsets : list Z) (n : nat)
  : result matrix :=
  if check_diags offsets diagonals n then
    Return
      ((fun i =>
         (fun j =>
            match find_offset (Z.of_nat j - Z.of_nat i) offsets diagonals with
            | Some v => diag_elem v i j
            | None => 0%Q
            end) <$> seq 0 n) <$> seq 0 n)
  else Raise ValueError.

(** [A * c] for a scalar [c]. *)
Definition mat_scale (A : matrix) (c : Q) : matrix :=
  (fun row : list Q => (fun x => (x * c)%Q) <$> row) <$> A.

(** Python index normalisation against a length: a negative index counts
    from the end, an index out of range raises [IndexError]. *)
Definition norm_index (i : Z) (len : nat) : result nat :=
  let j := if (i <? 0)%Z then (i + Z.of_nat len)%Z else i in
  if ((j <? 0) || (Z.of_nat len <=? j))%Z then Raise IndexError
  else Return (Z.to_nat j).

(** [A[i, :] = v]. *)
Definition set_row (A : matrix) (i : Z) (v : Q) : result matrix :=
  r <- norm_index i (length A) ;;
  match A !! r with
  | Some row => Return (<[r := replicate (length row) v]> A)
  | None => Raise IndexError
  end.

(** [A[i, j] = v]. *)
Definition set_item (A : matrix) (i j : Z) (v : Q) : result matrix :=
  r <- norm_index i (length A) ;;
  match A !! r with
  | Some row =>
      c <- norm_index j (length row) ;;
      Return (<[r := <[c := v]> row]> A)
  | None => Raise IndexError
  end.

(** ** The operator *)

(** The boundary block of [build_1d_operator] (the four assignments under
    "Left Wall" and "Right Wall"). *)
Definition apply_dirichlet (A : matrix) : result matrix :=
  A <- set_row A 0 0%Q ;;
  A <- set_item A 0 0 1%Q ;;
  A <- set_row A (-1) 0%Q ;;
  set_item A (-1) (-1) 1%Q.

Definition build_1d_operator (N : Z) (L nu : Q) : result matrix :=
  dx <- py_div L (inject_Z (N - 1)) ;;
  ones_N <- np_ones N ;;
  let main_diag := scalar_mul (-2) ones_N in
  ones_N1 <- np_ones (N - 1) ;;
  let off_diag := scalar_mul 1 ones_N1 in
  let diagonals := [main_diag; off_diag; off_diag] in
  let offsets := [0; -1; 1]%Z in
  A <- diags diagonals offsets (Z.to_nat N) ;;
  c <- py_div nu (dx ^ 2)%Q ;;
  let A := mat_scale A c in
  apply_dirichlet A.

(** ** The eigenvalue solver wrapper *)

Record complex : Type := Complex { real : Q; imag : Q }.

(** What the wrapper can observe and change: the matrix object its
    argument [A] refers to, and the text printed so far. *)
Record world : Type := World { operator : matrix; stdout : list string }.

Definition print (line : string) (w : world) : world :=
  World (operator w) (stdout w ++ [line]).

(** [f"{k}"] for an integer [k]. *)
Definition format_int (k : Z) : string := NilZero.string_of_int (Z.to_int k).

(** [x < y] on floats. *)
Definition Qlt_bool (x y : Q) : bool := negb (Qle_bool y x).

Section Solver.

(** [scipy.sparse.linalg.eigs(A, k=k, which=which)] is library code.
    It is a parameter here: from the matrix, [k] and [which] it gives
    the outcome of the call (the pair [vals, vecs], or the exception
    raised) and the content of the matrix object after the call. *)
Variable eigs :
  matrix -> Z -> string -> result (list complex * list (list complex)) * matrix.

(** [str(e)], the text of an exception. *)
Variable str : exception -> string.

Definition run_arnoldi_solver (k : Z) (w : world)
  : result (option (list complex)) * world :=
  let w :=
    print (" -> Starting Arnoldi iteration (seeking top "
           ++ format_int k ++ " modes)...") w in
  let '(outcome, A') := eigs (operator w) k "LR" in
  let w := World A' (stdout w) in
  match outcome with
  | Return (vals, vecs) => (Return (Some vals), w)
  | Raise e =>
      let w := print ("[Error] Eigensolver failed to converge: " ++ str e) w in
      (Return None, w)
  end.

End Solver.

(** ** The reporting loop *)

(** One reported mode: the values the [print] of the loop body formats
    (the rendering of the floats as text is not modelled). *)
Record mode_line : Type :=
  ModeLine { index : nat; sigma_r : Q; freq : Q; status : string }.

(** The body of [for i, ev in enumerate(eigenvalues)], from index [i] on. *)
Fixpoint report_from (i : nat) (eigenvalues : list complex) : list mode_line :=
  match eigenvalues with
  | [] => []
  | ev :: rest =>
      if Qlt_bool (1 # 10000) (Qabs (real ev - 1)) then
        let sigma_r := real ev in
        let freq := imag ev in
        let status := (if Qlt_bool sigma_r 0 then "STABLE" else "UNSTABLE")%string in
        ModeLine i sigma_r freq status :: report_from (S i) rest
      else report_from (S i) rest
  end.

Definition report (eigenvalues : list complex) : list mode_line :=
  report_from 0 eigenvalues.

(** The [__main__] block with its four constants as arguments: assemble,
    solve, and report when the solver gave eigenvalues.  [out] is the
    text printed before the solver starts; the result is the list of
    modes the loop prints. *)
Definition pipeline
    (eigs : matrix -> Z -> string
            -> result (list complex * list (list complex)) * matrix)
    (str : exception -> string)
    (N : Z) (L nu : Q) (k : Z) (out : list string)
  : result (list mode_line) :=
  L_op <- build_1d_operator N L nu ;;
  let '(r, w) := run_arnoldi_solver eigs str k (World L_op out) in
  eigenvalues <- r ;;
  match eigenvalues with
  | Some vals => Return (report vals)
  | None => Return []
  end.

(** ** Notions used in the statements *)

(** The row with a single [1] at column [c] among [m] zeros. *)
Definition unit_row (m c : nat) : list Q := <[c := 1%Q]> (replicate m 0%Q).

(** Entry [(i, j)] of the matrix that [diags] builds from the three
    diagonals of [build_1d_operator]. *)
Definition stencil (i j : nat) : Q :=
  if j =? i then (-2 * 1)%Q
  else if (j =? i + 1) || (i =? j + 1) then (1 * 1)%Q
  else 0%Q.

(** The [n] by [n] table of those entries. *)
Definition tridiag (n : nat) : matrix :=
  (fun i => (fun j => stencil i j) <$> seq 0 n) <$> seq 0 n.

(** The scale factor [nu / dx**2] with [dx = L / (N - 1)]. *)
Definition grid_dx (N : Z) (L : Q) : Q := (L / inject_Z (N - 1))%Q.
Definition coeff (N : Z) (L nu : Q) : Q := (nu / grid_dx N L ^ 2)%Q.

(** Interior row [i] of the assembled operator, before and after the
    boundary block. *)
Definition interior_row (n i : nat) (c : Q) : list Q :=
  (fun x => (x * c)%Q) <$> ((fun j => stencil i j) <$> seq 0 n).

(** An [N] by [N] table. *)
Definition square (N : nat) (A : matrix) : Prop :=
  length A = N /\ Forall (fun row => length row = N) A.

(** The type of the [eigs] argument of [run_arnoldi_solver]. *)
Abbreviation eigs_type :=
  (matrix -> Z -> string -> result (list complex * list (list complex)) * matrix)
  (only parsing).

(** The line printed before the call of [eigs]. *)
Definition start_line (k : Z) : string :=
  " -> Starting Arnoldi iteration (seeking top " ++ format_int k ++ " modes)...".

(** The line printed by the [except] branch. *)
Definition error_line (str : exception -> string) (e : exception) : string :=
  "[Error] Eigensolver failed to converge: " ++ str e.

(** An [eigs] that never converges and leaves the matrix alone. *)
Definition eigs_no_convergence : eigs_type :=
  fun A _ _ => (Raise ArpackNoConvergence, A).

(** An [eigs] that gives back fixed eigenvalues and leaves the matrix alone. *)
Definition eigs_const (vals : list complex) : eigs_type :=
  fun A _ _ => (Return (vals, []), A).

(** A rendering of exceptions as text, for the examples. *)
Definition str_class (e : exception) : string :=
  match e with
  | ZeroDivisionError => "ZeroDivisionError"
  | ValueError => "ValueError"
  | IndexError => "IndexError"
  | ArpackNoConvergence => "ARPACK error -1: No convergence"
  | ArpackError => "ARPACK error"
  | OverflowError => "OverflowError"
  end.

(** The filter of the loop: [abs(ev.real - 1.0) > 1e-4]. *)
Definition passes_filter (ev : complex) : bool :=
  Qlt_bool (1 # 10000) (Qabs (real ev - 1)).

(** The line the loop body makes of eigenvalue [ev] at position [i]. *)
Definition line_of (i : nat) (ev : complex) : mode_line :=
  ModeLine i (real ev) (imag ev)
    (if Qlt_bool (real ev) 0 then "STABLE" else "UNSTABLE")%string.

(** ** Binary64 arithmetic *)

(** The warning [calculate_regime_numbers] prints. *)
Definition tension_warning : string :=
  "[Warning] Zero or negative surface tension? Check inputs.".

(** The assembly of the operator, and [calculate_regime_numbers] of
    [microfluidics_proof/droplet_shape_calc.py], with Python floats as
    IEEE 754 binary64 numbers (Rocq's primitive floats): divisions and
    products round, [x ** 2] can overflow or underflow, and the results
    can be infinite or NaN. *)
Module Binary64.

Abbreviation matrix := (list (list float)) (only parsing).

(** Entry [(i, j)], when the table has one. *)
Definition get (A : matrix) (i j : nat) : option float :=
  match A !! i with
  | Some row => row !! j
  | None => None
  end.

(** A Python int as a float: the nearest binary64 number (ties to even);
    an int too large for the format raises [OverflowError]. *)
Definition float_of_int (n : Z) : result float :=
  let x := SF2Prim (binary_normalize prec emax n 0 false) in
  if is_infinity x then Raise OverflowError else Return x.

(** [x / n] for a float [x] and an int [n]: [n] is made a float first;
    a zero divisor raises [ZeroDivisionError]. *)
Definition py_div_int (x : float) (n : Z) : result float :=
  y <- float_of_int n ;;
  if (n =? 0)%Z then Raise ZeroDivisionError else Return (x / y)%float.

(** [x / y] on floats: a divisor equal to zero ([0.0] or [-0.0]) raises
    [ZeroDivisionError]; an infinite or NaN quotient raises nothing. *)
Definition py_div (x y : float) : result float :=
  if (y =? 0)%float then Raise ZeroDivisionError else Return (x / y)%float.

(** [np.ones(n)]: a negative length raises [ValueError]. *)
Definition np_ones (n : Z) : result (list float) :=
  if (n <? 0)%Z then Raise ValueError
  else Return (replicate (Z.to_nat n) 1%float).

(** [c * v] for a scalar [c] and an array [v]. *)
Definition scalar_mul (c : float) (v : list float) : list float :=
  (fun x => (c * x)%float) <$> v.

(** The diagonal registered for offset [d], when there is one. *)
Fixpoint find_offset (d : Z) (offsets : list Z) (diagonals : list (list float))
  : option (list float) :=
  match offsets, diagonals with
  | o :: os, v :: vs => if (o =? d)%Z then Some v else find_offset d os vs
  | _, _ => None
  end.

(** Element of a diagonal placed at row [i], column [j]: a diagonal of
    length one is broadcast, otherwise it is indexed by [min i j]. *)
Definition diag_elem (v : list float) (i j : nat) : float :=
  match v with
  | [x] => x
  | _ => default 0%float (v !! Nat.min i j)
  end.

(** scipy's size check on the diagonals. *)
Fixpoint check_diags (offsets : list Z) (diagonals : list (list float))
    (n : nat) : bool :=
  match offsets, diagonals with
  | o :: os, v :: vs =>
      let len := (Z.of_nat n - Z.abs o)%Z in
      (0 <=? len)%Z
      && ((Z.of_nat (length v) =? len)%Z || (length v =? 1))
      && check_diags os vs n
  | [], [] => true
  | _, _ => false
  end.

(** [diags(diagonals, offsets, shape=(n, n), format='csr')], as the table
    of its entries.  The CSR matrix stores the entries of the diagonals
    that are not zero; every other entry of the table is [0.0]. *)
Definition diags (diagonals : list (list float)) (offsets : list Z) (n : nat)
  : result matrix :=
  if check_diags offsets diagonals n then
    Return
      ((fun i =>
         (fun j =>
            match find_offset (Z.of_nat j - Z.of_nat i) offsets diagonals with
            | Some v => diag_elem v i j
            | None => 0%float
            end) <$> seq 0 n) <$> seq 0 n)
  else Raise ValueError.

(** One entry of [A * c]: scipy multiplies the stored entries, which for
    a matrix made by [diags] are the nonzero ones; an entry that is not
    stored stays [0.0] whatever [c] is (also infinite or NaN). *)
Definition scale_entry (c x : float) : float :=
  if (x =? 0)%float then x else (x * c)%float.

(** [A * c] for a scalar [c]. *)
Definition mat_scale (A : matrix) (c : float) : matrix :=
  (fun row : list float => scale_entry c <$> row) <$> A.

(** [A[i, :] = v]. *)
Definition set_row (A : matrix) (i : Z) (v : float) : result matrix :=
  r <- norm_index i (length A) ;;
  match A !! r with
  | Some row => Return (<[r := replicate (length row) v]> A)
  | None => Raise IndexError
  end.

(** [A[i, j] = v]. *)
Definition set_item (A : matrix) (i j : Z) (v : float) : result matrix :=
  r <- norm_index i (length A) ;;
  match A !! r with
  | Some row =>
      c <- norm_index j (length row) ;;
      Return (<[r := <[c := v]> row]> A)
  | None => Raise IndexError
  end.

(** The boundary block of [build_1d_operator]. *)
Definition apply_dirichlet (A : matrix) : result matrix :=
  A <- set_row A 0 0%float ;;
  A <- set_item A 0 0 1%float ;;
  A <- set_row A (-1) 0%float ;;
  set_item A (-1) (-1) 1%float.

Section Pow.

(** [pow(a, 2.0)] of the C library, which Python calls for [a ** 2] on a
    finite [a > 0] other than [1.0]. *)
Variable c_pow2 : float -> float.

(** [x ** 2] on a Python float: NaN, the infinities, zero and [1.0] are
    answered without the C library; otherwise the sign is dropped, the C
    library is called, and an infinite result raises [OverflowError]
    (a result that underflows, to zero or not, raises nothing). *)
Definition py_square (x : float) : result float :=
  if is_nan x then Return x
  else if is_infinity x then Return infinity
  else if (x =? 0)%float then Return 0%float
  else
    let a := abs x in
    if (a =? 1)%float then Return 1%float
    else
      let r := c_pow2 a in
      if is_infinity r then Raise OverflowError else Return r.

Definition build_1d_operator (N : Z) (L nu : float) : result matrix :=
  dx <- py_div_int L (N - 1) ;;
  ones_N <- np_ones N ;;
  let main_diag := scalar_mul (-2) ones_N in
  ones_N1 <- np_ones (N - 1) ;;
  let off_diag := scalar_mul 1 ones_N1 in
  let diagonals := [main_diag; off_diag; off_diag] in
  let offsets := [0; -1; 1]%Z in
  A <- diags diagonals offsets (Z.to_nat N) ;;
  dx2 <- py_square dx ;;
  c <- py_div nu dx2 ;;
  let A := mat_scale A c in
  apply_dirichlet A.

(** The float steps of [build_1d_operator] on their own:
    [dx = L / (N - 1)], [dx ** 2] and [nu / dx ** 2]. *)
Definition grid_factor (N : Z) (L nu : float) : result float :=
  dx <- py_div_int L (N - 1) ;;
  dx2 <- py_square dx ;;
  py_div nu dx2.

(** [out] is the text printed so far; the value is [None] or the pair
    [(Ca, We)]. *)
Definition calculate_regime_numbers (mu_c U sigma rho_c D_hyd : float)
    (out : list string) : result (option (float * float)) * list string :=
  if (sigma <=? 0)%float then (Return None, out ++ [tension_warning])
  else
    (Ca <- py_div (mu_c * U) sigma ;;
     U2 <- py_square U ;;
     We <- py_div (rho_c * U2 * D_hyd) sigma ;;
     Return (Some (Ca, We)),
     out).

End Pow.

(** A C library whose [pow(a, 2.0)] is the correctly rounded square. *)
Definition pow2_rounded (a : float) : float := (a * a)%float.

(** The row with a single [1.0] at column [c] among [m] zeros. *)
Definition unit_row (m c : nat) : list float :=
  <[c := 1%float]> (replicate m 0%float).

(** Entry [(i, j)] of the matrix that [diags] builds from the three
    diagonals of [build_1d_operator]. *)
Definition stencil (i j : nat) : float :=
  if j =? i then (-2 * 1)%float
  else if (j =? i + 1) || (i =? j + 1) then (1 * 1)%float
  else 0%float.

Definition tridiag (n : nat) : matrix :=
  (fun i => (fun j => stencil i j) <$> seq 0 n) <$> seq 0 n.

(** The [n] by [n] operator with scale factor [c]: unit rows first and
    last, scaled stencil rows between them. *)
Definition operator_table (n : nat) (c : float) : matrix :=
  <[n - 1 := unit_row n (n - 1)]>
    (<[0 := unit_row n 0]> (mat_scale (tridiag n) c)).

(** Mirrored entries are equal as floats ([==] of Python). *)
Definition symmetric (A : matrix) : Prop :=
  forall i j x y,
    get A i j = Some x -> get A j i = Some y -> (x =? y)%float = true.


End Binary64.

(** ** [src/01_process_ansys_data.py] *)

Definition newline : string := String (Ascii.ascii_of_nat 10) EmptyString.

(** The lines [load_ansys_export] prints. *)
Definition not_found_line (filepath : string) : string :=
  "[Error] Base flow file not found: " ++ filepath.

Definition reading_line (filepath : string) : string :=
  "Reading base flow fields from: " ++ filepath.

Definition loaded_line (nodes : nat) : string :=
  " -> Successfully loaded " ++ format_int (Z.of_nat nodes) ++ " nodes.".

Definition parse_error_line (details : string) : string :=
  "[Error] Failed to parse CSV. Check if format is standard Fluent export."
  ++ newline ++ "Details: " ++ details.

Section Loader.

(** The data frame type of pandas and the exceptions its reader raises. *)
Variable DataFrame : Type.
Variable ReadError : Type.

(** [os.path.exists(filepath)]. *)
Variable path_exists : string -> bool.

(** [pd.read_csv(filepath, skiprows=n)]: a frame, or an exception. *)
Variable read_csv : string -> nat -> DataFrame + ReadError.

(** [len(df)] and [str(e)]. *)
Variable len : DataFrame -> nat.
Variable str : ReadError -> string.

Definition load_ansys_export (filepath : string) (out : list string)
  : option DataFrame * list string :=
  if negb (path_exists filepath) then
    (None, out ++ [not_found_line filepath])
  else
    let out := out ++ [reading_line filepath] in
    match read_csv filepath 4 with
    | inl df => (Some df, out ++ [loaded_line (len df)])
    | inr e => (None, out ++ [parse_error_line (str e)])
    end.

End Loader.

(** * Properties *)

(** ** Index normalisation and the two assignments *)

Lemma norm_index_first (n : nat) : norm_index 0 (S n) = Return 0.
Proof.
  unfold norm_index. simpl (0 <? 0)%Z. cbv iota.
  replace (0 <? 0)%Z with false by reflexivity.
  replace (Z.of_nat (S n) <=? 0)%Z with false; [reflexivity |].
  symmetry. apply Z.leb_gt. lia.
Qed.

Lemma norm_index_last (n : nat) : norm_index (-1) (S n) = Return n.
Proof.
  unfold norm_index. replace (-1 <? 0)%Z with true by reflexivity.
  replace (-1 + Z.of_nat (S n) <? 0)%Z with false
    by (symmetry; apply Z.ltb_ge; lia).
  replace (Z.of_nat (S n) <=? -1 + Z.of_nat (S n))%Z with false
    by (symmetry; apply Z.leb_gt; lia).
  simpl. f_equal. lia.
Qed.

Lemma unit_row_length (m c : nat) : length (unit_row m c) = m.
Proof. unfold unit_row. by rewrite length_insert, length_replicate. Qed.

Lemma unit_row_first (m : nat) : unit_row (S m) 0 = 1%Q :: replicate m 0%Q.
Proof. reflexivity. Qed.

Lemma unit_row_last (m : nat) : unit_row (S m) m = replicate m 0%Q ++ [1%Q].
Proof.
  unfold unit_row. induction m as [| m IH]; [reflexivity |].
  simpl. f_equal. exact IH.
Qed.

Lemma set_row_ok (A : matrix) (r : nat) (i : Z) (row : list Q) (v : Q) :
  norm_index i (length A) = Return r ->
  A !! r = Some row ->
  set_row A i v = Return (<[r := replicate (length row) v]> A).
Proof. intros Hi Hr. unfold set_row. rewrite Hi. simpl. by rewrite Hr. Qed.

Lemma set_item_ok (A : matrix) (r c : nat) (i j : Z) (row : list Q) (v : Q) :
  norm_index i (length A) = Return r ->
  A !! r = Some row ->
  norm_index j (length row) = Return c ->
  set_item A i j v = Return (<[r := <[c := v]> row]> A).
Proof.
  intros Hi Hr Hj. unfold set_item. rewrite Hi. simpl. rewrite Hr, Hj.
  reflexivity.
Qed.

(** The first three assignments of the boundary block always go through
    on a matrix with [S n] rows whose first row is not empty. *)
Lemma apply_dirichlet_steps (A : matrix) (n m0 : nat) (r0 rl : list Q) :
  length A = S n ->
  A !! 0 = Some r0 -> length r0 = S m0 ->
  A !! n = Some rl ->
  apply_dirichlet A =
  set_item (<[n := replicate (length rl) 0%Q]> (<[0 := unit_row (S m0) 0]> A))
           (-1) (-1) 1%Q.
Proof.
  intros HA H0 Hm0 Hn. unfold apply_dirichlet.
  rewrite (set_row_ok A 0 0 r0) by (rewrite ?HA; auto using norm_index_first).
  cbn [bind]. rewrite Hm0.
  set (A1 := <[0 := replicate (S m0) 0%Q]> A).
  assert (HA1 : length A1 = S n) by (unfold A1; by rewrite length_insert).
  assert (H01 : A1 !! 0 = Some (replicate (S m0) 0%Q)).
  { unfold A1. apply list_lookup_insert_eq. lia. }
  rewrite (set_item_ok A1 0 0 0 0 (replicate (S m0) 0%Q))
    by (rewrite ?HA1, ?length_replicate; auto using norm_index_first).
  cbn [bind]. fold (unit_row (S m0) 0). unfold A1. rewrite list_insert_insert_eq.
  set (A2 := <[0 := unit_row (S m0) 0]> A).
  assert (HA2 : length A2 = S n) by (unfold A2; by rewrite length_insert).
  assert (exists r, A2 !! n = Some r /\ length r = length rl) as (r & Hr & Hlr).
  { unfold A2. destruct n as [| n].
    - rewrite list_lookup_insert_eq by lia.
      eexists; split; [reflexivity |]. rewrite unit_row_length.
      rewrite H0 in Hn. injection Hn as <-. lia.
    - rewrite list_lookup_insert_ne by lia. eauto. }
  rewrite (set_row_ok A2 n (-1) r) by (rewrite ?HA2; auto using norm_index_last).
  cbn [bind]. rewrite Hlr. reflexivity.
Qed.

(** Closed form of the boundary block on a matrix with [S n] rows whose
    first and last rows are not empty. *)
Lemma apply_dirichlet_ok (A : matrix) (n m0 ml : nat) (r0 rl : list Q) :
  length A = S n ->
  A !! 0 = Some r0 -> length r0 = S m0 ->
  A !! n = Some rl -> length rl = S ml ->
  apply_dirichlet A =
  Return (<[n := unit_row (S ml) ml]> (<[0 := unit_row (S m0) 0]> A)).
Proof.
  intros HA H0 Hm0 Hn Hml.
  rewrite (apply_dirichlet_steps A n m0 r0 rl) by assumption.
  rewrite Hml.
  set (A3 := <[n := replicate (S ml) 0%Q]> (<[0 := unit_row (S m0) 0]> A)).
  assert (HA3 : length A3 = S n) by (unfold A3; by rewrite !length_insert).
  rewrite (set_item_ok A3 n ml (-1) (-1) (replicate (S ml) 0%Q)).
  - unfold A3. rewrite list_insert_insert_eq. reflexivity.
  - rewrite HA3. apply norm_index_last.
  - unfold A3. apply list_lookup_insert_eq. rewrite length_insert. lia.
  - rewrite length_replicate. apply norm_index_last.
Qed.

(** A successful boundary block had a matrix of that form to work on. *)
Lemma apply_dirichlet_inv (A B : matrix) :
  apply_dirichlet A = Return B ->
  exists n m0 ml r0 rl,
    length A = S n /\ A !! 0 = Some r0 /\ length r0 = S m0
    /\ A !! n = Some rl /\ length rl = S ml.
Proof.
  intros HB. destruct A as [| r0 A']; [discriminate |].
  destruct r0 as [| x r0']; [discriminate |].
  destruct (lookup_lt_is_Some_2 ((x :: r0') :: A') (length A')) as [rl Hrl];
    [simpl; lia |].
  exists (length A'), (length r0'), (pred (length rl)), (x :: r0'), rl.
  repeat split; auto.
  destruct rl as [| y rl']; [| reflexivity].
  rewrite (apply_dirichlet_steps _ (length A') (length r0') (x :: r0') [])
    in HB by auto.
  unfold set_item in HB. rewrite !length_insert in HB. simpl length in HB.
  rewrite norm_index_last in HB. cbn [bind] in HB.
  rewrite list_lookup_insert_eq in HB by (rewrite length_insert; simpl; lia).
  discriminate.
Qed.

(** ** The assembled stencil *)

Lemma diag_elem_const (f : Q -> Q) (m i j : nat) :
  Nat.min i j < m -> diag_elem (f <$> replicate m 1%Q) i j = f 1%Q.
Proof.
  intros Hlt. destruct m as [| [| m]]; [lia | reflexivity |].
  unfold diag_elem.
  change (f <$> replicate (S (S m)) 1%Q)
    with (f 1%Q :: f 1%Q :: (f <$> replicate m 1%Q)).
  change (f 1%Q :: f 1%Q :: (f <$> replicate m 1%Q))
    with (f <$> replicate (S (S m)) 1%Q).
  rewrite list_lookup_fmap, lookup_replicate_2 by assumption. reflexivity.
Qed.

Lemma diags_tridiag (n : nat) :
  2 <= n ->
  diags [scalar_mul (-2) (replicate n 1%Q);
         scalar_mul 1 (replicate (n - 1) 1%Q);
         scalar_mul 1 (replicate (n - 1) 1%Q)] [0; -1; 1]%Z n
  = Return (tridiag n).
Proof.
  intros Hn. unfold diags.
  replace (check_diags _ _ n) with true.
  2:{ symmetry. unfold check_diags, scalar_mul.
      rewrite !length_fmap, !length_replicate.
      repeat (apply andb_true_intro; split); try reflexivity;
        try (apply Z.leb_le; lia);
        apply orb_true_intro; left; apply Z.eqb_eq; lia. }
  f_equal. unfold tridiag.
  apply list_fmap_ext; intros ki i Hi.
  apply list_fmap_ext; intros kj j Hj.
  apply lookup_seq in Hi as [-> Hi]. apply lookup_seq in Hj as [-> Hj].
  rewrite !Nat.add_0_l. unfold find_offset, stencil, scalar_mul.
  destruct (Z.eqb_spec 0 (Z.of_nat kj - Z.of_nat ki)) as [E0 | E0].
  { replace (kj =? ki) with true by (symmetry; apply Nat.eqb_eq; lia).
    apply diag_elem_const. lia. }
  replace (kj =? ki) with false by (symmetry; apply Nat.eqb_neq; lia).
  destruct (Z.eqb_spec (-1) (Z.of_nat kj - Z.of_nat ki)) as [E1 | E1].
  { replace (ki =? kj + 1) with true by (symmetry; apply Nat.eqb_eq; lia).
    rewrite orb_true_r. apply diag_elem_const. lia. }
  replace (ki =? kj + 1) with false by (symmetry; apply Nat.eqb_neq; lia).
  rewrite orb_false_r.
  destruct (Z.eqb_spec 1 (Z.of_nat kj - Z.of_nat ki)) as [E2 | E2].
  { replace (kj =? ki + 1) with true by (symmetry; apply Nat.eqb_eq; lia).
    apply diag_elem_const. lia. }
  replace (kj =? ki + 1) with false by (symmetry; apply Nat.eqb_neq; lia).
  reflexivity.
Qed.

Lemma tridiag_length (n : nat) (c : Q) : length (mat_scale (tridiag n) c) = n.
Proof. unfold mat_scale, tridiag. by rewrite !length_fmap, length_seq. Qed.

Lemma tridiag_row (n i : nat) (c : Q) :
  i < n ->
  mat_scale (tridiag n) c !! i
  = Some ((fun x => (x * c)%Q) <$> ((fun j => stencil i j) <$> seq 0 n)).
Proof.
  intros Hi. unfold mat_scale, tridiag.
  rewrite !list_lookup_fmap, lookup_seq_lt by assumption. reflexivity.
Qed.

(** ** Closed form of [build_1d_operator] *)

Lemma Qeq_bool_false (x y : Q) : ~ x == y -> Qeq_bool x y = false.
Proof.
  intros Hne. destruct (Qeq_bool x y) eqn:E; [| reflexivity].
  apply Qeq_bool_iff in E. contradiction.
Qed.

Lemma inject_Z_nonzero (z : Z) : z <> 0%Z -> ~ inject_Z z == 0.
Proof. intros Hz E. unfold Qeq in E. simpl in E. lia. Qed.

Lemma grid_dx_nonzero (N : Z) (L : Q) :
  N <> 1%Z -> ~ L == 0 -> ~ grid_dx N L == 0.
Proof.
  intros HN HL E. apply HL.
  assert (Hx : ~ inject_Z (N - 1) == 0) by (apply inject_Z_nonzero; lia).
  unfold grid_dx in E.
  rewrite <- (Qmult_div_r L (inject_Z (N - 1))) by assumption.
  rewrite E. ring.
Qed.

Lemma Qsquare_nonzero (x : Q) : ~ x == 0 -> ~ x ^ 2 == 0.
Proof.
  intros Hx E. change (x ^ 2)%Q with (x * x)%Q in E.
  apply Qmult_integral in E. tauto.
Qed.

Lemma build_ok (N : Z) (L nu : Q) :
  (2 <= N)%Z -> ~ L == 0 ->
  build_1d_operator N L nu =
  Return (<[Z.to_nat N - 1 := unit_row (Z.to_nat N) (Z.to_nat N - 1)]>
            (<[0 := unit_row (Z.to_nat N) 0]>
               (mat_scale (tridiag (Z.to_nat N)) (coeff N L nu)))).
Proof.
  intros HN HL. unfold build_1d_operator, py_div, np_ones.
  rewrite (Qeq_bool_false (inject_Z (N - 1)) 0)
    by (apply inject_Z_nonzero; lia).
  cbn [bind].
  replace (N <? 0)%Z with false by (symmetry; apply Z.ltb_ge; lia).
  replace (N - 1 <? 0)%Z with false by (symmetry; apply Z.ltb_ge; lia).
  cbn [bind]. replace (Z.to_nat (N - 1)) with (Z.to_nat N - 1) by lia.
  rewrite diags_tridiag by lia. cbn [bind].
  fold (grid_dx N L).
  rewrite (Qeq_bool_false (grid_dx N L ^ 2) 0)
    by (apply Qsquare_nonzero, grid_dx_nonzero; [lia | assumption]).
  cbn [bind]. fold (coeff N L nu).
  destruct (Z.to_nat N) as [| n] eqn:En; [lia |].
  replace (S n - 1) with n by lia.
  eapply apply_dirichlet_ok.
  - apply tridiag_length.
  - apply tridiag_row. lia.
  - by rewrite !length_fmap, length_seq.
  - apply tridiag_row. lia.
  - by rewrite !length_fmap, length_seq.
Qed.

Lemma build_spec (N : Z) (L nu : Q) :
  (2 <= N)%Z -> ~ L == 0 ->
  exists B : matrix,
    build_1d_operator N L nu = Return B
    /\ length B = Z.to_nat N
    /\ B !! 0 = Some (unit_row (Z.to_nat N) 0)
    /\ B !! (Z.to_nat N - 1) = Some (unit_row (Z.to_nat N) (Z.to_nat N - 1))
    /\ forall i, 0 < i < Z.to_nat N - 1 ->
         B !! i = Some (interior_row (Z.to_nat N) i (coeff N L nu)).
Proof.
  intros HN HL. eexists. split; [apply build_ok; assumption |].
  set (n := Z.to_nat N). assert (Hn : 2 <= n) by (unfold n; lia).
  set (T := mat_scale (tridiag n) (coeff N L nu)).
  assert (HT : length T = n) by apply tridiag_length.
  repeat split.
  - by rewrite !length_insert.
  - rewrite list_lookup_insert_ne by lia.
    apply list_lookup_insert_eq. lia.
  - apply list_lookup_insert_eq. rewrite length_insert. lia.
  - intros i Hi. rewrite !list_lookup_insert_ne by lia.
    apply tridiag_row. lia.
Qed.

(** ** Outcomes of [build_1d_operator] outside its working range *)

Lemma build_one_point (L nu : Q) :
  build_1d_operator 1 L nu = Raise ZeroDivisionError.
Proof. reflexivity. Qed.

Lemma build_no_points (N : Z) (L nu : Q) :
  (N <= 0)%Z -> build_1d_operator N L nu = Raise ValueError.
Proof.
  intros HN. unfold build_1d_operator, py_div, np_ones.
  rewrite (Qeq_bool_false (inject_Z (N - 1)) 0)
    by (apply inject_Z_nonzero; lia).
  cbn [bind]. destruct (Z.ltb_spec N 0) as [Hneg | Hge]; [reflexivity |].
  cbn [bind].
  replace (N - 1 <? 0)%Z with true by (symmetry; apply Z.ltb_lt; lia).
  reflexivity.
Qed.

Lemma build_zero_length (N : Z) (L nu : Q) :
  (2 <= N)%Z -> L == 0 -> build_1d_operator N L nu = Raise ZeroDivisionError.
Proof.
  intros HN HL. unfold build_1d_operator, py_div, np_ones.
  rewrite (Qeq_bool_false (inject_Z (N - 1)) 0)
    by (apply inject_Z_nonzero; lia).
  cbn [bind].
  replace (N <? 0)%Z with false by (symmetry; apply Z.ltb_ge; lia).
  replace (N - 1 <? 0)%Z with false by (symmetry; apply Z.ltb_ge; lia).
  cbn [bind]. replace (Z.to_nat (N - 1)) with (Z.to_nat N - 1) by lia.
  rewrite diags_tridiag by lia. cbn [bind].
  replace (Qeq_bool ((L / inject_Z (N - 1)) ^ 2) 0) with true; [reflexivity |].
  symmetry. apply Qeq_bool_iff.
  change ((L / inject_Z (N - 1)) ^ 2)%Q
    with ((L / inject_Z (N - 1)) * (L / inject_Z (N - 1)))%Q.
  unfold Qdiv. rewrite HL. ring.
Qed.

Lemma build_returns_iff (N : Z) (L nu : Q) :
  returns (build_1d_operator N L nu) <-> (2 <= N)%Z /\ ~ L == 0.
Proof.
  split.
  - intros [B HB].
    destruct (Z_le_gt_dec N 0) as [H0 | H0].
    { rewrite build_no_points in HB by assumption. discriminate. }
    destruct (Z.eq_dec N 1%Z) as [-> | H1].
    { rewrite build_one_point in HB. discriminate. }
    split; [lia |]. intros HL.
    rewrite build_zero_length in HB by (assumption || lia). discriminate.
  - intros [HN HL]. destruct (build_spec N L nu HN HL) as (B & HB & _).
    by exists B.
Qed.

(** * The operator builder *)

(** C4: after the boundary block, whatever the [N] by [N] content was
    before ([N >= 2]), row 0 is [1, 0, ..., 0] and row [N - 1] is
    [0, ..., 0, 1]; in particular this holds of every operator that
    [build_1d_operator] returns, for every [L] and [nu]. *)
Theorem dirichlet_boundary_rows (N : nat) (A : matrix) (L nu : Q) :
  2 <= N -> square N A ->
  (exists B : matrix,
      apply_dirichlet A = Return B
      /\ B !! 0 = Some (1%Q :: replicate (N - 1) 0%Q)
      /\ B !! (N - 1) = Some (replicate (N - 1) 0%Q ++ [1%Q]))
  /\ (forall B : matrix,
        build_1d_operator (Z.of_nat N) L nu = Return B ->
        B !! 0 = Some (1%Q :: replicate (N - 1) 0%Q)
        /\ B !! (N - 1) = Some (replicate (N - 1) 0%Q ++ [1%Q])).
Proof.
  intros HN [Hlen Hrows]. destruct N as [| m]; [lia |].
  replace (S m - 1) with m by lia.
  rewrite <- unit_row_first, <- unit_row_last. split.
  - destruct (lookup_lt_is_Some_2 A 0) as [r0 H0]; [lia |].
    destruct (lookup_lt_is_Some_2 A m) as [rl Hl]; [lia |].
    assert (Hr0 : length r0 = S m)
      by (eapply (proj1 (Forall_lookup _ _) Hrows); eassumption).
    assert (Hrl : length rl = S m)
      by (eapply (proj1 (Forall_lookup _ _) Hrows); eassumption).
    eexists. split; [eapply apply_dirichlet_ok; eassumption |]. split.
    + rewrite list_lookup_insert_ne by lia. apply list_lookup_insert_eq. lia.
    + apply list_lookup_insert_eq. rewrite length_insert. lia.
  - intros B HB.
    assert (Hret : returns (build_1d_operator (Z.of_nat (S m)) L nu))
      by (by exists B).
    apply build_returns_iff in Hret as [HN' HL].
    destruct (build_spec _ L nu HN' HL) as (B' & HB' & _ & H0 & Hl & _).
    rewrite HB in HB'. injection HB' as <-.
    rewrite Nat2Z.id in H0, Hl.
    replace (S m - 1) with m in Hl by lia. auto.
Qed.

Lemma dirichlet_boundary_rows_witness :
  2 <= 2 /\ square 2 [[5; 6]; [7; 8]]%Q
  /\ exists B : matrix,
       apply_dirichlet [[5; 6]; [7; 8]]%Q = Return B
       /\ B !! 0 = Some [1; 0]%Q /\ B !! 1 = Some [0; 1]%Q.
Proof.
  assert (Hsq : square 2 [[5; 6]; [7; 8]]%Q)
    by (split; [reflexivity | repeat constructor]).
  split; [lia |]. split; [exact Hsq |].
  exact (proj1 (dirichlet_boundary_rows 2 [[5; 6]; [7; 8]]%Q 1 1
                  (le_n 2) Hsq)).
Defined.

(** C7: running the boundary block on a matrix it has already been run on
    changes nothing: the result is that same matrix. *)
Theorem apply_dirichlet_idempotent (A B : matrix) :
  apply_dirichlet A = Return B -> apply_dirichlet B = Return B.
Proof.
  intros HB.
  destruct (apply_dirichlet_inv A B HB)
    as (n & m0 & ml & r0 & rl & HA & H0 & Hm0 & Hn & Hml).
  rewrite (apply_dirichlet_ok A n m0 ml r0 rl) in HB by assumption.
  injection HB as <-.
  set (u0 := unit_row (S m0) 0). set (ul := unit_row (S ml) ml).
  assert (Hlen : length (<[n := ul]> (<[0 := u0]> A)) = S n)
    by (by rewrite !length_insert).
  assert (Hul : (<[n := ul]> (<[0 := u0]> A)) !! n = Some ul)
    by (apply list_lookup_insert_eq; rewrite length_insert; lia).
  destruct n as [| n].
  - rewrite (apply_dirichlet_ok _ 0 ml ml ul ul)
      by (assumption || apply unit_row_length).
    fold ul. by rewrite !list_insert_insert_eq.
  - assert (Hu0 : (<[S n := ul]> (<[0 := u0]> A)) !! 0 = Some u0).
    { rewrite list_lookup_insert_ne by lia.
      apply list_lookup_insert_eq. lia. }
    rewrite (apply_dirichlet_ok _ (S n) m0 ml u0 ul)
      by (assumption || apply unit_row_length).
    fold u0 ul. f_equal.
    rewrite (list_insert_id _ 0 u0) by assumption.
    by apply list_insert_id.
Qed.

Lemma apply_dirichlet_idempotent_witness :
  apply_dirichlet [[5; 6; 7]; [8; 9; 10]; [11; 12; 13]]%Q
  = Return [[1; 0; 0]; [8; 9; 10]; [0; 0; 1]]%Q
  /\ apply_dirichlet [[1; 0; 0]; [8; 9; 10]; [0; 0; 1]]%Q
     = Return [[1; 0; 0]; [8; 9; 10]; [0; 0; 1]]%Q.
Proof.
  split; [reflexivity |].
  exact (apply_dirichlet_idempotent
           [[5; 6; 7]; [8; 9; 10]; [11; 12; 13]]%Q
           [[1; 0; 0]; [8; 9; 10]; [0; 0; 1]]%Q eq_refl).
Defined.

(** * The solver wrapper *)

(** C1, as the code has it: when [eigs] raises (non-convergence or any
    other exception), [run_arnoldi_solver] catches the exception, prints
    one line made of a fixed prefix and the text of the exception, and
    returns [None]; nothing is raised to the caller. *)
Theorem solver_failure_returns_none
    (eigs : eigs_type) (str : exception -> string)
    (k : Z) (w : world) (e : exception) :
  fst (eigs (operator w) k "LR"%string) = Raise e ->
  fst (run_arnoldi_solver eigs str k w) = Return None
  /\ stdout (snd (run_arnoldi_solver eigs str k w))
     = stdout w ++ [start_line k; error_line str e].
Proof.
  intros He. unfold run_arnoldi_solver. cbn [print operator stdout].
  destruct (eigs (operator w) k "LR"%string) as [outcome A'].
  cbn [fst] in He. subst outcome. cbn [fst snd print stdout operator].
  split; [reflexivity |].
  by rewrite <- app_assoc.
Qed.

Lemma solver_failure_returns_none_witness :
  fst (eigs_no_convergence (operator (World [[1]]%Q [])) 4%Z "LR"%string)
  = Raise ArpackNoConvergence
  /\ fst (run_arnoldi_solver eigs_no_convergence str_class 4
            (World [[1]]%Q []))
     = Return None.
Proof.
  split; [reflexivity |].
  exact (proj1 (solver_failure_returns_none eigs_no_convergence str_class
                  4%Z (World [[1]]%Q []) ArpackNoConvergence eq_refl)).
Defined.

(** C1, as stated, fails: with an [eigs] that does not converge the call
    of [run_arnoldi_solver] raises nothing and its value is [None]. *)
Lemma solver_swallows_convergence_failure :
  fst (run_arnoldi_solver eigs_no_convergence str_class 4
         (World [[1; 0; 0]; [4; -8; 4]; [0; 0; 1]]%Q []))
  = Return None
  /\ ~ (forall (eigs : eigs_type) (str : exception -> string)
               (k : Z) (w : world) (e : exception),
          fst (eigs (operator w) k "LR"%string) = Raise e ->
          raises (fst (run_arnoldi_solver eigs str k w))).
Proof.
  split; [reflexivity |]. intros H.
  destruct (H eigs_no_convergence str_class 4%Z (World [] [])
              ArpackNoConvergence eq_refl) as [e He].
  discriminate.
Qed.

(** * The reporting loop *)

Lemma Qlt_bool_iff (x y : Q) : Qlt_bool x y = true <-> (x < y)%Q.
Proof.
  unfold Qlt_bool. rewrite negb_true_iff. split.
  - intros E. apply Qnot_le_lt. intros Hle.
    apply Qle_bool_iff in Hle. congruence.
  - intros Hlt. destruct (Qle_bool y x) eqn:E; [| reflexivity].
    apply Qle_bool_iff in E. apply Qlt_not_le in Hlt. contradiction.
Qed.

(** The lines of the report are those of the eigenvalues that pass the
    filter, each under its position in the array. *)
Lemma report_from_elem (s : nat) (vals : list complex) (m : mode_line) :
  m ∈ report_from s vals <->
  exists i ev, vals !! i = Some ev /\ passes_filter ev = true
               /\ m = line_of (s + i) ev.
Proof.
  revert s. induction vals as [| ev vals IH]; intros s; cbn [report_from].
  - split; [intros H; inversion H | intros (i & ev & H & _); discriminate].
  - fold (passes_filter ev). fold (line_of s ev).
    destruct (passes_filter ev) eqn:Epass.
    + rewrite elem_of_cons, IH. split.
      * intros [-> | (i & ev' & Hi & Hp & ->)].
        -- exists 0, ev. rewrite Nat.add_0_r. auto.
        -- exists (S i), ev'. rewrite Nat.add_succ_r. auto.
      * intros ([| i] & ev' & Hi & Hp & ->).
        -- injection Hi as <-. left. by rewrite Nat.add_0_r.
        -- right. exists i, ev'. rewrite Nat.add_succ_r. auto.
    + rewrite IH. split.
      * intros (i & ev' & Hi & Hp & ->).
        exists (S i), ev'. rewrite Nat.add_succ_r. auto.
      * intros ([| i] & ev' & Hi & Hp & ->).
        -- injection Hi as <-. congruence.
        -- exists i, ev'. rewrite Nat.add_succ_r. auto.
Qed.

Lemma report_elem (vals : list complex) (m : mode_line) :
  m ∈ report vals <->
  exists i ev, vals !! i = Some ev /\ passes_filter ev = true
               /\ m = line_of i ev.
Proof. unfold report. apply report_from_elem. Qed.

(** What a successful run of the pipeline reports. *)
Lemma pipeline_modes (eigs : eigs_type) (str : exception -> string)
    (N : Z) (L nu : Q) (k : Z) (out : list string) (modes : list mode_line) :
  pipeline eigs str N L nu k out = Return modes ->
  modes = [] \/ exists vals, modes = report vals.
Proof.
  unfold pipeline. destruct (build_1d_operator N L nu) as [B | e];
    [| discriminate].
  cbn [bind]. destruct (run_arnoldi_solver _ _ _ _) as [[[vals |] | e] w];
    cbn [bind]; intros H; try discriminate; injection H as <-; eauto.
Qed.

(** C3, as the code has it: the exclusion is done by the reporting loop
    of [__main__], not by the solver.  In a run of the pipeline that
    succeeds, no reported mode has a real part within [1e-4] of [1.0]:
    an eigenvalue whose real part is within that tolerance gets no line
    (it is neither classified nor shown), and every other eigenvalue gets
    its line.  [run_arnoldi_solver] itself marks and removes nothing: it
    returns the eigenvalues as [eigs] gave them. *)
Theorem artifact_modes_excluded
    (eigs : eigs_type) (str : exception -> string)
    (N : Z) (L nu : Q) (k : Z) (out : list string) (modes : list mode_line) :
  pipeline eigs str N L nu k out = Return modes ->
  (forall m, m ∈ modes -> ~ (Qabs (sigma_r m - 1) <= 1 # 10000)%Q)
  /\ (forall (vals : list complex) (i : nat) (ev : complex) (m : mode_line),
        vals !! i = Some ev -> (Qabs (real ev - 1) <= 1 # 10000)%Q ->
        m ∈ report vals -> index m <> i)
  /\ (forall (vals : list complex) (i : nat) (ev : complex),
        vals !! i = Some ev -> ~ (Qabs (real ev - 1) <= 1 # 10000)%Q ->
        line_of i ev ∈ report vals)
  /\ (forall (w : world) (vals : list complex) (vecs : list (list complex)),
        fst (eigs (operator w) k "LR"%string) = Return (vals, vecs) ->
        fst (run_arnoldi_solver eigs str k w) = Return (Some vals)).
Proof.
  intros Hrun. split; [| split; [| split]].
  - intros m Hm. destruct (pipeline_modes _ _ _ _ _ _ _ _ Hrun) as [-> | [vals ->]].
    + inversion Hm.
    + apply report_elem in Hm as (i & ev & _ & Hp & ->).
      apply Qlt_bool_iff in Hp. apply Qlt_not_le. exact Hp.
  - intros vals i ev m Hi Hnear Hm Hidx.
    apply report_elem in Hm as (i' & ev' & Hi' & Hp & ->).
    cbn [index line_of] in Hidx. subst i'.
    rewrite Hi in Hi'. injection Hi' as <-.
    apply Qlt_bool_iff in Hp. apply Qlt_not_le in Hp. contradiction.
  - intros vals i ev Hi Hfar. apply report_elem.
    exists i, ev. repeat split; [assumption |].
    apply Qlt_bool_iff. by apply Qnot_le_lt.
  - intros w vals vecs He. unfold run_arnoldi_solver.
    cbn [print operator stdout].
    destruct (eigs (operator w) k "LR"%string) as [outcome A'].
    cbn [fst] in He. subst outcome. reflexivity.
Qed.

Lemma artifact_modes_excluded_witness :
  pipeline (eigs_const [Complex 1 0; Complex (-1 # 100) 0]) str_class
           3 1 1 2 []
  = Return [ModeLine 1 (-1 # 100) 0 "STABLE"]
  /\ forall m, m ∈ [ModeLine 1 (-1 # 100) 0 "STABLE"] ->
               ~ (Qabs (sigma_r m - 1) <= 1 # 10000)%Q.
Proof.
  split; [reflexivity |].
  exact (proj1 (artifact_modes_excluded
                  (eigs_const [Complex 1 0; Complex (-1 # 100) 0]) str_class
                  3 1 1 2 [] [ModeLine 1 (-1 # 100) 0 "STABLE"] eq_refl)).
Defined.

(** C3, as stated, fails: the sequence [run_arnoldi_solver] returns
    still holds the boundary artifacts.  With an [eigs] that gives the
    eigenvalues [1.0] and [-0.01], the value of the call is that same
    array, whose first eigenvalue has real part exactly [1.0]. *)
Lemma solver_returns_artifacts :
  fst (run_arnoldi_solver
         (eigs_const [Complex 1 0; Complex (-1 # 100) 0]) str_class 2
         (World [[1; 0; 0]; [4; -8; 4]; [0; 0; 1]]%Q []))
  = Return (Some [Complex 1 0; Complex (-1 # 100) 0])
  /\ (Qabs (real (Complex 1 0) - 1) <= 1 # 10000)%Q
  /\ ~ (forall (eigs : eigs_type) (str : exception -> string)
               (k : Z) (w : world) (vals : list complex),
          fst (run_arnoldi_solver eigs str k w) = Return (Some vals) ->
          forall ev, ev ∈ vals -> ~ (Qabs (real ev - 1) <= 1 # 10000)%Q).
Proof.
  assert (Hnear : (Qabs (real (Complex 1 0) - 1) <= 1 # 10000)%Q)
    by discriminate.
  split; [reflexivity |]. split; [exact Hnear |].
  intros H.
  apply (H (eigs_const [Complex 1 0; Complex (-1 # 100) 0]) str_class 2%Z
           (World [] []) [Complex 1 0; Complex (-1 # 100) 0] eq_refl
           (Complex 1 0)); [apply list_elem_of_here | exact Hnear].
Qed.



(** * Further properties of the boundary block and of the builder *)

Lemma norm_index_error (i : Z) (len : nat) (e : exception) :
  norm_index i len = Raise e -> e = IndexError.
Proof.
  unfold norm_index. destruct (_ || _)%bool; intros H; congruence.
Qed.

Lemma set_row_error (A : matrix) (i : Z) (v : Q) (e : exception) :
  set_row A i v = Raise e -> e = IndexError.
Proof.
  unfold set_row. destruct (norm_index i (length A)) as [r | e'] eqn:Hi.
  - cbn [bind]. destruct (A !! r); intros H; congruence.
  - cbn [bind]. intros H. injection H as <-. eauto using norm_index_error.
Qed.

Lemma set_item_error (A : matrix) (i j : Z) (v : Q) (e : exception) :
  set_item A i j v = Raise e -> e = IndexError.
Proof.
  unfold set_item. destruct (norm_index i (length A)) as [r | e'] eqn:Hi.
  - cbn [bind]. destruct (A !! r) as [row |]; [| intros H; congruence].
    destruct (norm_index j (length row)) as [c | e'] eqn:Hj; cbn [bind].
    + intros H; congruence.
    + intros H. injection H as <-. eauto using norm_index_error.
  - cbn [bind]. intros H. injection H as <-. eauto using norm_index_error.
Qed.

Lemma apply_dirichlet_error (A : matrix) (e : exception) :
  apply_dirichlet A = Raise e -> e = IndexError.
Proof.
  unfold apply_dirichlet.
  destruct (set_row A 0 0%Q) as [A1 | e1] eqn:H1; cbn [bind];
    [| intros H; injection H as <-; eauto using set_row_error].
  destruct (set_item A1 0 0 1%Q) as [A2 | e2] eqn:H2; cbn [bind];
    [| intros H; injection H as <-; eauto using set_item_error].
  destruct (set_row A2 (-1) 0%Q) as [A3 | e3] eqn:H3; cbn [bind];
    [| intros H; injection H as <-; eauto using set_row_error].
  apply set_item_error.
Qed.

(** X2: the boundary block goes through exactly on a matrix that has a first
    and a last row, both with at least one column; on any other matrix
    (no rows, or an empty first or last row) it raises, and what it raises
    is [IndexError]. *)
Theorem apply_dirichlet_outcome (A : matrix) :
  (returns (apply_dirichlet A) <->
   exists r0 rl : list Q,
     head A = Some r0 /\ last A = Some rl /\ r0 <> [] /\ rl <> [])
  /\ (forall e, apply_dirichlet A = Raise e -> e = IndexError).
Proof.
  split; [| apply apply_dirichlet_error]. split.
  - intros [B HB].
    destruct (apply_dirichlet_inv A B HB)
      as (n & m0 & ml & r0 & rl & HA & H0 & Hm0 & Hn & Hml).
    exists r0, rl. rewrite head_lookup, last_lookup, HA. cbn [pred].
    repeat split; auto; intros ->; discriminate.
  - intros (r0 & rl & H0 & Hl & Hr0 & Hrl).
    rewrite head_lookup in H0. rewrite last_lookup in Hl.
    destruct A as [| a A']; [discriminate |].
    cbn [length pred] in Hl.
    destruct r0 as [| x r0']; [congruence |].
    destruct rl as [| y rl']; [congruence |].
    eexists. eapply (apply_dirichlet_ok _ (length A')); eauto.
Qed.

(** X3: the boundary block keeps the shape of the matrix and touches only its
    first and last rows: every row strictly between them is the same
    before and after. *)
Theorem apply_dirichlet_frame (A B : matrix) :
  apply_dirichlet A = Return B ->
  length B = length A
  /\ (forall i, length <$> B !! i = length <$> A !! i)
  /\ (forall i, 0 < i -> i + 1 < length A -> B !! i = A !! i).
Proof.
  intros HB.
  destruct (apply_dirichlet_inv A B HB)
    as (n & m0 & ml & r0 & rl & HA & H0 & Hm0 & Hn & Hml).
  rewrite (apply_dirichlet_ok A n m0 ml r0 rl) in HB by assumption.
  injection HB as <-. split; [by rewrite !length_insert |]. split.
  - intros i. destruct (decide (i = n)) as [-> | Hin].
    + rewrite list_lookup_insert_eq by (rewrite length_insert; lia).
      rewrite Hn.
      change (Some (length (unit_row (S ml) ml)) = Some (length rl)).
      by rewrite unit_row_length, Hml.
    + rewrite list_lookup_insert_ne by lia.
      destruct (decide (i = 0)) as [-> | Hi0].
      * rewrite list_lookup_insert_eq by lia.
        rewrite H0.
        change (Some (length (unit_row (S m0) 0)) = Some (length r0)).
        by rewrite unit_row_length, Hm0.
      * by rewrite list_lookup_insert_ne by lia.
  - intros i Hi Hlt. by rewrite !list_lookup_insert_ne by lia.
Qed.

Lemma apply_dirichlet_frame_witness :
  apply_dirichlet [[5; 6; 7]; [8; 9; 10]; [11; 12; 13]]%Q
  = Return [[1; 0; 0]; [8; 9; 10]; [0; 0; 1]]%Q
  /\ [[1; 0; 0]; [8; 9; 10]; [0; 0; 1]]%Q !! 1
     = [[5; 6; 7]; [8; 9; 10]; [11; 12; 13]]%Q !! 1.
Proof.
  split; [reflexivity |].
  refine (proj2 (proj2 (apply_dirichlet_frame
                          [[5; 6; 7]; [8; 9; 10]; [11; 12; 13]]%Q
                          [[1; 0; 0]; [8; 9; 10]; [0; 0; 1]]%Q eq_refl))
                1 _ _); simpl; lia.
Defined.

(** X1: every operator [build_1d_operator] returns is an [N] by [N] table. *)
Theorem build_shape (N : Z) (L nu : Q) (B : matrix) :
  build_1d_operator N L nu = Return B -> square (Z.to_nat N) B.
Proof.
  intros HB.
  assert (Hret : returns (build_1d_operator N L nu)) by (by exists B).
  apply build_returns_iff in Hret as [HN HL].
  rewrite build_ok in HB by assumption. injection HB as <-.
  split; [by rewrite !length_insert, tridiag_length |].
  apply Forall_insert; [apply Forall_insert |]; try apply unit_row_length.
  unfold mat_scale, tridiag. apply Forall_fmap, Forall_fmap, Forall_forall.
  intros i _. cbn. by rewrite !length_fmap, length_seq.
Qed.

Lemma build_shape_witness :
  exists B : matrix, build_1d_operator 4 3 5 = Return B /\ square 4 B.
Proof.
  eexists. split; [reflexivity |].
  exact (build_shape 4 3 5 _ eq_refl).
Defined.

Lemma apply_dirichlet_outcome_witness :
  returns (apply_dirichlet [[5; 6]; [7; 8]]%Q)
  /\ ~ returns (apply_dirichlet [[5; 6]; []]%Q).
Proof.
  split.
  - apply (proj1 (apply_dirichlet_outcome [[5; 6]; [7; 8]]%Q)).
    exists [5; 6]%Q, [7; 8]%Q. repeat split; discriminate.
  - intros [B HB]. discriminate.
Defined.

(** ** The value of the solver wrapper *)

(** X6: [run_arnoldi_solver] never raises.  Its value is the array of
    eigenvalues exactly as [eigs] gave it (same order, nothing removed,
    the eigenvectors dropped) when [eigs] returned, and [None] exactly
    when [eigs] raised; on success the only line printed is the starting
    line. *)
Theorem solver_value (eigs : eigs_type) (str : exception -> string)
    (k : Z) (w : world) :
  ~ raises (fst (run_arnoldi_solver eigs str k w))
  /\ (fst (run_arnoldi_solver eigs str k w) = Return None
      <-> raises (fst (eigs (operator w) k "LR"%string)))
  /\ (forall vals,
        fst (run_arnoldi_solver eigs str k w) = Return (Some vals)
        <-> exists vecs,
              fst (eigs (operator w) k "LR"%string) = Return (vals, vecs))
  /\ (returns (fst (eigs (operator w) k "LR"%string)) ->
      stdout (snd (run_arnoldi_solver eigs str k w))
      = stdout w ++ [start_line k]).
Proof.
  unfold run_arnoldi_solver. cbn [print operator stdout].
  destruct (eigs (operator w) k "LR"%string) as [[[vals vecs] | e] A'];
    cbn [fst snd print stdout operator].
  - split; [intros [e He]; discriminate |]. split; [| split].
    + split; [discriminate | intros [e He]; discriminate].
    + intros vals'. split.
      * intros H. injection H as <-. by exists vecs.
      * intros [vecs' H]. by injection H as <- <-.
    + reflexivity.
  - split; [intros [e' He]; discriminate |]. split; [| split].
    + split; [by exists e | reflexivity].
    + intros vals'. split; [discriminate | intros [vecs' H]; discriminate].
    + intros [x Hx]. discriminate.
Qed.

Lemma solver_value_witness :
  returns (fst (eigs_const [Complex 1 0; Complex (-2) 3]
                  (operator (World [[1]]%Q [])) 2%Z "LR"%string))
  /\ stdout (snd (run_arnoldi_solver
                    (eigs_const [Complex 1 0; Complex (-2) 3]) str_class 2
                    (World [[1]]%Q [])))
     = [start_line 2].
Proof.
  assert (H : returns (fst (eigs_const [Complex 1 0; Complex (-2) 3]
                              (operator (World [[1]]%Q [])) 2%Z "LR"%string)))
    by (eexists; reflexivity).
  split; [exact H |].
  exact (proj2 (proj2 (proj2 (solver_value
           (eigs_const [Complex 1 0; Complex (-2) 3]) str_class 2%Z
           (World [[1]]%Q [])))) H).
Defined.

(** ** Positions in the report *)

Lemma report_from_sorted (s : nat) (vals : list complex) :
  StronglySorted lt (index <$> report_from s vals).
Proof.
  revert s. induction vals as [| ev vals IH]; intros s; cbn [report_from].
  - constructor.
  - destruct (Qlt_bool _ _); [| apply IH].
    cbn [fmap list_fmap]. constructor; [apply IH |].
    apply Forall_fmap, Forall_forall. intros m Hm.
    apply report_from_elem in Hm as (i & ev' & _ & _ & ->).
    cbn. lia.
Qed.

Lemma report_from_length (s : nat) (vals : list complex) :
  length (report_from s vals) <= length vals.
Proof.
  revert s. induction vals as [| ev vals IH]; intros s; cbn [report_from].
  - reflexivity.
  - destruct (Qlt_bool _ _); cbn [length]; specialize (IH (S s)); lia.
Qed.

(** X7: the report keeps the order of the solver and the positions in its
    array: the indices of the printed lines increase strictly, each line
    carries the real and imaginary part of the eigenvalue found at its
    index (indices are not renumbered after filtering), and there are at
    most as many lines as eigenvalues. *)
Theorem report_keeps_positions (vals : list complex) :
  StronglySorted lt (index <$> report vals)
  /\ (forall m, m ∈ report vals ->
        exists ev, vals !! index m = Some ev
                   /\ sigma_r m = real ev /\ freq m = imag ev)
  /\ length (report vals) <= length vals.
Proof.
  split; [apply report_from_sorted |]. split; [| apply report_from_length].
  intros m Hm. apply report_elem in Hm as (i & ev & Hi & _ & ->).
  exists ev. auto.
Qed.

Lemma report_keeps_positions_witness :
  StronglySorted lt
    (index <$> report [Complex (-3) 0; Complex 1 0; Complex 0 (1 # 2)])
  /\ index <$> report [Complex (-3) 0; Complex 1 0; Complex 0 (1 # 2)]
     = [0; 2].
Proof.
  split; [| reflexivity].
  exact (proj1 (report_keeps_positions
                  [Complex (-3) 0; Complex 1 0; Complex 0 (1 # 2)])).
Defined.

(** ** Outcomes of the pipeline *)

(** X8: the pipeline raises exactly when [build_1d_operator] raises, and
    then the same exception, whatever the solver does.  When the
    operator is built and [eigs] raises, the pipeline reports the empty
    list of modes; when [eigs] returns eigenvalues, it reports the
    filtered lines of those. *)
Theorem pipeline_outcome (eigs : eigs_type) (str : exception -> string)
    (N : Z) (L nu : Q) (k : Z) (out : list string) :
  (forall e, pipeline eigs str N L nu k out = Raise e
             <-> build_1d_operator N L nu = Raise e)
  /\ (forall B e,
        build_1d_operator N L nu = Return B ->
        fst (eigs B k "LR"%string) = Raise e ->
        pipeline eigs str N L nu k out = Return [])
  /\ (forall B vals vecs,
        build_1d_operator N L nu = Return B ->
        fst (eigs B k "LR"%string) = Return (vals, vecs) ->
        pipeline eigs str N L nu k out = Return (report vals)).
Proof.
  assert (Hrun : forall B,
             build_1d_operator N L nu = Return B ->
             pipeline eigs str N L nu k out
             = match fst (eigs B k "LR"%string) with
               | Return (vals, _) => Return (report vals)
               | Raise _ => Return []
               end).
  { intros B HB. unfold pipeline, run_arnoldi_solver. rewrite HB.
    cbn [bind print operator stdout].
    destruct (eigs B k "LR"%string) as [[[vals vecs] | e] A']; reflexivity. }
  split; [| split].
  - intros e. destruct (build_1d_operator N L nu) as [B | e'] eqn:HB.
    + rewrite (Hrun B eq_refl).
      destruct (fst (eigs B k "LR"%string)) as [[vals vecs] | e''];
        split; discriminate.
    + unfold pipeline. rewrite HB. cbn [bind].
      split; intros H; injection H as ->; reflexivity.
  - intros B e HB He. by rewrite (Hrun B HB), He.
  - intros B vals vecs HB He. by rewrite (Hrun B HB), He.
Qed.

Lemma pipeline_outcome_witness :
  build_1d_operator 1 1 1 = Raise ZeroDivisionError
  /\ pipeline eigs_no_convergence str_class 1 1 1 4 []
     = Raise ZeroDivisionError
  /\ pipeline eigs_no_convergence str_class 3 1 1 4 [] = Return [].
Proof.
  split; [reflexivity |]. split.
  - exact (proj2 (proj1 (pipeline_outcome eigs_no_convergence str_class
                           1 1 1 4 []) ZeroDivisionError) eq_refl).
  - exact (proj1 (proj2 (pipeline_outcome eigs_no_convergence str_class
                           3 1 1 4 [])) _ ArpackNoConvergence eq_refl eq_refl).
Defined.

(** * The operator in binary64 arithmetic *)

(** ** The boundary block on a table of floats *)

Lemma unit_row_length_f64 (m c : nat) : length (Binary64.unit_row m c) = m.
Proof.
  unfold Binary64.unit_row. by rewrite length_insert, length_replicate.
Qed.

Lemma set_row_ok_f64 (A : list (list float)) (r : nat) (i : Z)
    (row : list float) (v : float) :
  norm_index i (length A) = Return r ->
  A !! r = Some row ->
  Binary64.set_row A i v = Return (<[r := replicate (length row) v]> A).
Proof.
  intros Hi Hr. unfold Binary64.set_row. rewrite Hi. simpl. by rewrite Hr.
Qed.

Lemma set_item_ok_f64 (A : list (list float)) (r c : nat) (i j : Z)
    (row : list float) (v : float) :
  norm_index i (length A) = Return r ->
  A !! r = Some row ->
  norm_index j (length row) = Return c ->
  Binary64.set_item A i j v = Return (<[r := <[c := v]> row]> A).
Proof.
  intros Hi Hr Hj. unfold Binary64.set_item. rewrite Hi. simpl.
  rewrite Hr, Hj. reflexivity.
Qed.

Lemma apply_dirichlet_ok_f64 (A : list (list float)) (n m0 ml : nat)
    (r0 rl : list float) :
  length A = S n ->
  A !! 0 = Some r0 -> length r0 = S m0 ->
  A !! n = Some rl -> length rl = S ml ->
  Binary64.apply_dirichlet A =
  Return (<[n := Binary64.unit_row (S ml) ml]>
            (<[0 := Binary64.unit_row (S m0) 0]> A)).
Proof.
  intros HA H0 Hm0 Hn Hml. unfold Binary64.apply_dirichlet.
  rewrite (set_row_ok_f64 A 0 0 r0)
    by (rewrite ?HA; auto using norm_index_first).
  cbn [bind]. rewrite Hm0.
  set (A1 := <[0 := replicate (S m0) 0%float]> A).
  assert (HA1 : length A1 = S n) by (unfold A1; by rewrite length_insert).
  assert (H01 : A1 !! 0 = Some (replicate (S m0) 0%float)).
  { unfold A1. apply list_lookup_insert_eq. lia. }
  rewrite (set_item_ok_f64 A1 0 0 0 0 (replicate (S m0) 0%float))
    by (rewrite ?HA1, ?length_replicate; auto using norm_index_first).
  cbn [bind]. fold (Binary64.unit_row (S m0) 0).
  unfold A1. rewrite list_insert_insert_eq.
  set (A2 := <[0 := Binary64.unit_row (S m0) 0]> A).
  assert (HA2 : length A2 = S n) by (unfold A2; by rewrite length_insert).
  assert (exists r, A2 !! n = Some r /\ length r = S ml) as (r & Hr & Hlr).
  { unfold A2. destruct n as [| n].
    - rewrite list_lookup_insert_eq by lia.
      eexists; split; [reflexivity |]. rewrite unit_row_length_f64.
      rewrite H0 in Hn. injection Hn as <-. lia.
    - rewrite list_lookup_insert_ne by lia. eauto. }
  rewrite (set_row_ok_f64 A2 n (-1) r)
    by (rewrite ?HA2; auto using norm_index_last).
  cbn [bind]. rewrite Hlr.
  set (A3 := <[n := replicate (S ml) 0%float]> A2).
  assert (HA3 : length A3 = S n) by (unfold A3; by rewrite length_insert).
  rewrite (set_item_ok_f64 A3 n ml (-1) (-1) (replicate (S ml) 0%float)).
  - unfold A3. rewrite list_insert_insert_eq. reflexivity.
  - rewrite HA3. apply norm_index_last.
  - unfold A3. apply list_lookup_insert_eq. lia.
  - rewrite length_replicate. apply norm_index_last.
Qed.

(** ** The assembled stencil *)

Lemma diag_elem_const_f64 (f : float -> float) (m i j : nat) :
  Nat.min i j < m ->
  Binary64.diag_elem (f <$> replicate m 1%float) i j = f 1%float.
Proof.
  intros Hlt. destruct m as [| [| m]]; [lia | reflexivity |].
  unfold Binary64.diag_elem.
  change (f <$> replicate (S (S m)) 1%float)
    with (f 1%float :: f 1%float :: (f <$> replicate m 1%float)).
  change (f 1%float :: f 1%float :: (f <$> replicate m 1%float))
    with (f <$> replicate (S (S m)) 1%float).
  rewrite list_lookup_fmap, lookup_replicate_2 by assumption. reflexivity.
Qed.

Lemma diags_tridiag_f64 (n : nat) :
  2 <= n ->
  Binary64.diags
    [Binary64.scalar_mul (-2) (replicate n 1%float);
     Binary64.scalar_mul 1 (replicate (n - 1) 1%float);
     Binary64.scalar_mul 1 (replicate (n - 1) 1%float)] [0; -1; 1]%Z n
  = Return (Binary64.tridiag n).
Proof.
  intros Hn. unfold Binary64.diags.
  replace (Binary64.check_diags _ _ n) with true.
  2:{ symmetry. unfold Binary64.check_diags, Binary64.scalar_mul.
      rewrite !length_fmap, !length_replicate.
      repeat (apply andb_true_intro; split); try reflexivity;
        try (apply Z.leb_le; lia);
        apply orb_true_intro; left; apply Z.eqb_eq; lia. }
  f_equal. unfold Binary64.tridiag.
  apply list_fmap_ext; intros ki i Hi.
  apply list_fmap_ext; intros kj j Hj.
  apply lookup_seq in Hi as [-> Hi]. apply lookup_seq in Hj as [-> Hj].
  rewrite !Nat.add_0_l.
  unfold Binary64.find_offset, Binary64.stencil, Binary64.scalar_mul.
  destruct (Z.eqb_spec 0 (Z.of_nat kj - Z.of_nat ki)) as [E0 | E0].
  { replace (kj =? ki) with true by (symmetry; apply Nat.eqb_eq; lia).
    apply (diag_elem_const_f64 (fun x => (-2 * x)%float)). lia. }
  replace (kj =? ki) with false by (symmetry; apply Nat.eqb_neq; lia).
  destruct (Z.eqb_spec (-1) (Z.of_nat kj - Z.of_nat ki)) as [E1 | E1].
  { replace (ki =? kj + 1) with true by (symmetry; apply Nat.eqb_eq; lia).
    rewrite orb_true_r.
    apply (diag_elem_const_f64 (fun x => (1 * x)%float)). lia. }
  replace (ki =? kj + 1) with false by (symmetry; apply Nat.eqb_neq; lia).
  rewrite orb_false_r.
  destruct (Z.eqb_spec 1 (Z.of_nat kj - Z.of_nat ki)) as [E2 | E2].
  { replace (kj =? ki + 1) with true by (symmetry; apply Nat.eqb_eq; lia).
    apply (diag_elem_const_f64 (fun x => (1 * x)%float)). lia. }
  replace (kj =? ki + 1) with false by (symmetry; apply Nat.eqb_neq; lia).
  reflexivity.
Qed.

Lemma tridiag_length_f64 (n : nat) (c : float) :
  length (Binary64.mat_scale (Binary64.tridiag n) c) = n.
Proof.
  unfold Binary64.mat_scale, Binary64.tridiag.
  by rewrite !length_fmap, length_seq.
Qed.

Lemma tridiag_row_f64 (n i : nat) (c : float) :
  i < n ->
  Binary64.mat_scale (Binary64.tridiag n) c !! i
  = Some (Binary64.scale_entry c
            <$> ((fun j => Binary64.stencil i j) <$> seq 0 n)).
Proof.
  intros Hi. unfold Binary64.mat_scale, Binary64.tridiag.
  rewrite !list_lookup_fmap, lookup_seq_lt by assumption. reflexivity.
Qed.

(** ** Closed form of the binary64 builder *)


Lemma py_square_error (c_pow2 : float -> float) (x : float) (e : exception) :
  Binary64.py_square c_pow2 x = Raise e -> e = OverflowError.
Proof.
  unfold Binary64.py_square.
  repeat match goal with
         | |- context [if ?b then _ else _] => destruct b
         end; congruence.
Qed.


Lemma build_ok_f64 (c_pow2 : float -> float) (N : Z) (L nu : float) :
  (2 <= N)%Z ->
  Binary64.build_1d_operator c_pow2 N L nu
  = (c <- Binary64.grid_factor c_pow2 N L nu ;;
     Return (Binary64.operator_table (Z.to_nat N) c)).
Proof.
  intros HN. unfold Binary64.build_1d_operator, Binary64.grid_factor.
  unfold Binary64.py_div_int.
  destruct (Binary64.float_of_int (N - 1)) as [fN | e]; [| reflexivity].
  cbn [bind].
  replace (N - 1 =? 0)%Z with false by (symmetry; apply Z.eqb_neq; lia).
  cbn [bind]. unfold Binary64.np_ones.
  replace (N <? 0)%Z with false by (symmetry; apply Z.ltb_ge; lia).
  replace (N - 1 <? 0)%Z with false by (symmetry; apply Z.ltb_ge; lia).
  cbn [bind]. replace (Z.to_nat (N - 1)) with (Z.to_nat N - 1) by lia.
  rewrite diags_tridiag_f64 by lia. cbn [bind].
  destruct (Binary64.py_square c_pow2 (L / fN)) as [dx2 | e];
    [| reflexivity].
  cbn [bind]. destruct (Binary64.py_div nu dx2) as [c | e]; [| reflexivity].
  cbn [bind]. unfold Binary64.operator_table.
  destruct (Z.to_nat N) as [| n] eqn:En; [lia |].
  replace (S n - 1) with n by lia.
  eapply apply_dirichlet_ok_f64.
  - apply tridiag_length_f64.
  - apply tridiag_row_f64. lia.
  - by rewrite !length_fmap, length_seq.
  - apply tridiag_row_f64. lia.
  - by rewrite !length_fmap, length_seq.
Qed.




Lemma operator_table_interior (n i j : nat) (c : float) :
  0 < i < n - 1 -> j < n ->
  Binary64.get (Binary64.operator_table n c) i j
  = Some (Binary64.scale_entry c (Binary64.stencil i j)).
Proof.
  intros Hi Hj. unfold Binary64.get, Binary64.operator_table.
  rewrite !list_lookup_insert_ne by lia.
  rewrite tridiag_row_f64 by lia.
  rewrite !list_lookup_fmap, lookup_seq_lt by assumption. reflexivity.
Qed.

Lemma operator_table_first (n j : nat) (c : float) :
  2 <= n -> 0 < j < n ->
  Binary64.get (Binary64.operator_table n c) 0 j = Some 0%float.
Proof.
  intros Hn Hj. unfold Binary64.get, Binary64.operator_table.
  rewrite list_lookup_insert_ne by lia.
  rewrite list_lookup_insert_eq by (rewrite tridiag_length_f64; lia).
  unfold Binary64.unit_row. rewrite list_lookup_insert_ne by lia.
  apply lookup_replicate_2. lia.
Qed.

Lemma operator_table_last (n j : nat) (c : float) :
  2 <= n -> j < n - 1 ->
  Binary64.get (Binary64.operator_table n c) (n - 1) j = Some 0%float.
Proof.
  intros Hn Hj. unfold Binary64.get, Binary64.operator_table.
  rewrite list_lookup_insert_eq
    by (rewrite length_insert, tridiag_length_f64; lia).
  unfold Binary64.unit_row. rewrite list_lookup_insert_ne by lia.
  apply lookup_replicate_2. lia.
Qed.

Lemma stencil_row_f64 (k : nat) :
  Binary64.stencil (S k) k = 1%float
  /\ Binary64.stencil (S k) (S k) = (-2)%float
  /\ Binary64.stencil (S k) (S (S k)) = 1%float.
Proof.
  unfold Binary64.stencil. repeat split.
  - replace (k =? S k) with false by (symmetry; apply Nat.eqb_neq; lia).
    replace (S k =? k + 1) with true by (symmetry; apply Nat.eqb_eq; lia).
    by rewrite orb_true_r.
  - by rewrite Nat.eqb_refl.
  - replace (S (S k) =? S k) with false by (symmetry; apply Nat.eqb_neq; lia).
    replace (S (S k) =? S k + 1) with true by (symmetry; apply Nat.eqb_eq; lia).
    reflexivity.
Qed.




(** ** Outcome of the builder *)

(** Decimal literals such as [1e160] stand for the nearest binary64
    number, as they do in Python. *)
#[local] Set Warnings "-inexact-float".




(** ** Interior rows *)




(** ** Boundary columns *)

(** C10, as the code has it: for [N >= 3], whenever [build_1d_operator]
    returns, with [c] the binary64 value of [nu / dx ** 2]: the entries
    [(1, 0)] and [(N - 2, N - 1)] hold [1.0 * c] (the boundary columns are
    not cleared) while the mirrored entries [(0, 1)] and [(N - 1, N - 2)]
    are [0.0].  The matrix is therefore not symmetric as soon as
    [1.0 * c] differs from zero. *)
Theorem boundary_columns_binary64
    (c_pow2 : float -> float) (N : Z) (L nu : float)
    (B : list (list float)) :
  (3 <= N)%Z ->
  Binary64.build_1d_operator c_pow2 N L nu = Return B ->
  exists c : float,
    Binary64.grid_factor c_pow2 N L nu = Return c
    /\ Binary64.get B 1 0 = Some (1 * c)%float
    /\ Binary64.get B (Z.to_nat N - 2) (Z.to_nat N - 1) = Some (1 * c)%float
    /\ Binary64.get B 0 1 = Some 0%float
    /\ Binary64.get B (Z.to_nat N - 1) (Z.to_nat N - 2) = Some 0%float
    /\ ((1 * c =? 0)%float = false -> ~ Binary64.symmetric B).
Proof.
  intros HN HB. rewrite build_ok_f64 in HB by lia.
  destruct (Binary64.grid_factor c_pow2 N L nu) as [c | e];
    [| discriminate].
  cbn [bind] in HB. injection HB as <-.
  exists c. split; [reflexivity |].
  set (n := Z.to_nat N) in *. assert (Hn : 3 <= n) by (unfold n; lia).
  assert (H10 : Binary64.get (Binary64.operator_table n c) 1 0
                = Some (1 * c)%float).
  { rewrite operator_table_interior by lia.
    destruct (stencil_row_f64 0) as (-> & _). reflexivity. }
  assert (H01 : Binary64.get (Binary64.operator_table n c) 0 1
                = Some 0%float)
    by (apply operator_table_first; lia).
  split; [exact H10 |]. split; [| split; [exact H01 | split]].
  - rewrite operator_table_interior by lia.
    replace (n - 2) with (S (n - 3)) by lia.
    replace (n - 1) with (S (S (n - 3))) by lia.
    destruct (stencil_row_f64 (n - 3)) as (_ & _ & ->). reflexivity.
  - apply operator_table_last; lia.
  - intros Hc Hsym. specialize (Hsym 1 0 _ _ H10 H01). congruence.
Qed.

Lemma boundary_columns_binary64_witness :
  (3 <= 3)%Z
  /\ Binary64.build_1d_operator Binary64.pow2_rounded 3 1 1
     = Return [[1; 0; 0]; [4; -8; 4]; [0; 0; 1]]%float
  /\ ~ Binary64.symmetric [[1; 0; 0]; [4; -8; 4]; [0; 0; 1]]%float.
Proof.
  assert (H : (3 <= 3)%Z) by lia.
  split; [exact H |]. split; [reflexivity |].
  destruct (boundary_columns_binary64 Binary64.pow2_rounded 3 1 1 _ H eq_refl)
    as (c & Hc & _ & _ & _ & _ & Hns).
  injection Hc as <-. apply Hns. reflexivity.
Defined.

(** C10, as stated, fails.  With [N = 3], [L = 1e100], [nu = 1e-300]
    (positive [L], nonzero [nu]) the factor [nu / dx ** 2] underflows to
    zero: the entry [(1, 0)] is [0.0] and the returned matrix is
    symmetric.  With [L = 1e160] nothing is returned at all. *)
Lemma boundary_columns_can_vanish :
  Binary64.build_1d_operator Binary64.pow2_rounded 3 1e100 1e-300
  = Return [[1; 0; 0]; [0; -0; 0]; [0; 0; 1]]%float
  /\ (0 <? 1e100)%float = true /\ (1e-300 =? 0)%float = false
  /\ Binary64.symmetric [[1; 0; 0]; [0; -0; 0]; [0; 0; 1]]%float
  /\ ~ (forall (c_pow2 : float -> float) (N : Z) (L nu : float),
          (3 <= N)%Z -> (0 <? L)%float = true -> (nu =? 0)%float = false ->
          exists B : list (list float),
            Binary64.build_1d_operator c_pow2 N L nu = Return B
            /\ ~ Binary64.symmetric B).
Proof.
  assert (Hsym : Binary64.symmetric [[1; 0; 0]; [0; -0; 0]; [0; 0; 1]]%float).
  { intros i j x y Hx Hy.
    destruct i as [| [| [| i]]]; destruct j as [| [| [| j]]];
      cbn in Hx, Hy; try discriminate;
      injection Hx as <-; injection Hy as <-; reflexivity. }
  repeat (split; [reflexivity |]). split; [exact Hsym |].
  intros H.
  destruct (H Binary64.pow2_rounded 3%Z 1e100%float 1e-300%float)
    as (B & HB & Hns); [lia | reflexivity | reflexivity |].
  injection HB as <-. contradiction.
Qed.

(** * Flow regime numbers ([droplet_shape_calc.py]) *)

Lemma float_leb_false_eqb (x y : float) :
  (x <=? y)%float = false -> (x =? y)%float = false.
Proof.
  rewrite FloatAxioms.eqb_spec, FloatAxioms.leb_spec.
  unfold SFeqb, SFleb.
  destruct (SFcompare (Prim2SF x) (Prim2SF y)) as [[| |] |]; congruence.
Qed.

(** X10: [calculate_regime_numbers] never divides by zero, for any
    floats (NaN and signed zeros included): the test [sigma <= 0] lets
    no zero divisor through.  When the test holds it prints the warning
    and returns [None]; otherwise it prints nothing and either returns
    the pair [((mu_c * U) / sigma, (rho_c * U**2 * D_hyd) / sigma)] or,
    when [U ** 2] overflows, raises [OverflowError]. *)
Theorem regime_numbers_binary64
    (c_pow2 : float -> float) (mu_c U sigma rho_c D_hyd : float)
    (out : list string) :
  let run :=
    Binary64.calculate_regime_numbers c_pow2 mu_c U sigma rho_c D_hyd out in
  ((sigma <=? 0)%float = true ->
   run = (Return None, out ++ [tension_warning]))
  /\ ((sigma <=? 0)%float = false ->
      snd run = out
      /\ (forall U2, Binary64.py_square c_pow2 U = Return U2 ->
            fst run
            = Return (Some ((mu_c * U / sigma)%float,
                            (rho_c * U2 * D_hyd / sigma)%float)))
      /\ (raises (Binary64.py_square c_pow2 U) ->
          fst run = Raise OverflowError))
  /\ fst run <> Raise ZeroDivisionError.
Proof.
  unfold Binary64.calculate_regime_numbers. cbv zeta.
  destruct (sigma <=? 0)%float eqn:Hle.
  - split; [reflexivity |]. split; [discriminate |]. discriminate.
  - apply float_leb_false_eqb in Hle. unfold Binary64.py_div.
    rewrite Hle. cbn [bind fst snd].
    split; [discriminate |]. split.
    + intros _. split; [reflexivity |]. split.
      * intros U2 ->. reflexivity.
      * intros [e He]. rewrite He. cbn [bind].
        by rewrite (py_square_error _ _ _ He).
    + destruct (Binary64.py_square c_pow2 U) as [U2 | e] eqn:HU;
        cbn [bind]; [discriminate |].
      rewrite (py_square_error _ _ _ HU). discriminate.
Qed.

Lemma regime_numbers_binary64_witness :
  (2 <=? 0)%float = false
  /\ fst (Binary64.calculate_regime_numbers Binary64.pow2_rounded
            3 4 2 5 6 [])
     = Return (Some (6, 240)%float).
Proof.
  split; [reflexivity |].
  exact (proj1 (proj2 (proj1 (proj2 (regime_numbers_binary64
           Binary64.pow2_rounded 3 4 2 5 6 [])) eq_refl))
           16%float eq_refl).
Defined.

(** * Loading the base flow ([01_process_ansys_data.py]) *)

(** X13: [load_ansys_export] gives a data frame exactly when the file exists
    and [read_csv] (skipping four rows) returned it.  When the file does
    not exist the reader is not consulted: the result is [None] and one
    line naming the path is printed.  A reader that raises gives [None]
    too, after the reading line and a line with the text of the
    exception. *)
Theorem load_ansys_export_result
    (DataFrame ReadError : Type) (path_exists : string -> bool)
    (read_csv : string -> nat -> DataFrame + ReadError)
    (len : DataFrame -> nat) (str : ReadError -> string)
    (filepath : string) (out : list string) :
  let run :=
    load_ansys_export DataFrame ReadError path_exists read_csv len str
                      filepath out in
  (forall df, fst run = Some df <->
              path_exists filepath = true /\ read_csv filepath 4 = inl df)
  /\ (path_exists filepath = false ->
      run = (None, out ++ [not_found_line filepath]))
  /\ (forall e, path_exists filepath = true -> read_csv filepath 4 = inr e ->
      run = (None, out ++ [reading_line filepath; parse_error_line (str e)])).
Proof.
  unfold load_ansys_export. cbv zeta.
  destruct (path_exists filepath); cbn [negb].
  - destruct (read_csv filepath 4) as [df | e]; cbn [fst].
    + split; [| split].
      * intros df'. split.
        -- intros H. injection H as <-. auto.
        -- intros [_ H]. by injection H as <-.
      * discriminate.
      * intros e _ H. discriminate.
    + split; [| split].
      * intros df'. split; [discriminate | intros [_ H]; discriminate].
      * discriminate.
      * intros e' _ H. injection H as <-. by rewrite <- app_assoc.
  - split; [| split].
    + intros df. split; [discriminate | intros [H _]; discriminate].
    + reflexivity.
    + intros e H. discriminate.
Qed.

Lemma load_ansys_export_result_witness :
  load_ansys_export (list nat) string (fun _ => false)
                    (fun _ _ => inl [1; 2; 3]) length (fun e => e)
                    "base.csv" []
  = (None, [not_found_line "base.csv"]).
Proof.
  exact (proj1 (proj2 (load_ansys_export_result (list nat) string
                         (fun _ => false) (fun _ _ => inl [1; 2; 3])
                         length (fun e => e) "base.csv" []))
               eq_refl).
Defined.

(** * Examples *)

Example build_3 :
  build_1d_operator 3 1 1 =
  Return [[1; 0; 0]; [(1 * (4 # 1)); (-2 * 1 * (4 # 1)); (1 * (4 # 1))]; [0; 0; 1]]%Q.
Proof. vm_compute. reflexivity. Qed.

Example report_demo :
  report [Complex 1 0; Complex (-1 # 100) 0; Complex (1 # 2) 3]
  = [ModeLine 1 (-1 # 100) 0 "STABLE"; ModeLine 2 (1 # 2) 3 "UNSTABLE"].
Proof. reflexivity. Qed.
